(** * PostUpdateForm: the edit-form lifecycle of a post

    A shallow embedding of [src/components/post/form/PostUpdateForm.tsx]:
    the zod schema [formSchema], the populate effect, [handleContentChange],
    the asynchronous [onSubmit] handler and the character-counter markup,
    followed by the properties that the specification states about them.

    Conventions.  A JavaScript string is a [string]; [String.length] stands
    for the [.length] property (each element is one code unit).  A value of
    type [number] that holds a length is a [nat]; identifiers are [Z].
    An [async] function is a computation over the component's [World] that
    either resolves or rejects; [World] gathers everything the handlers
    reach through their closures. *)

From Stdlib Require Import String List Bool Arith ZArith Lia.
From Stdlib Require Import DecimalString DecimalPos DecimalZ Sorted.
Import ListNotations.

Local Open Scope string_scope.
Local Open Scope list_scope.

(* ================================================================== *)
(** ** JavaScript values used by the component *)

(** [String(n)] for a number holding an integer (of magnitude below
    10^21, where JavaScript still prints all digits): its decimal numeral. *)
Definition String_of_number (n : Z) : string :=
  NilZero.string_of_int (Z.to_int n).

(** [`${n}`] for a length. *)
Definition String_of_length (n : nat) : string :=
  NilZero.string_of_uint (Nat.to_uint n).

(** [new Error(message)], and whatever a collaborator throws. *)
Inductive JsError : Type :=
| MkError (message : string).

(* ================================================================== *)
(** ** The zod schema (lines 24-28) *)

Module z.

(** The two checks this file chains on [z.string()]. *)
Inductive check : Type :=
| check_min (n : nat)
| check_max (n : nat).

(** [z.string().c1(..).c2(..)]: the checks in the order written. *)
Definition string_schema := list check.

Definition string_ : string_schema := [].
Definition min (n : nat) (s : string_schema) : string_schema :=
  s ++ [check_min n].
Definition max (n : nat) (s : string_schema) : string_schema :=
  s ++ [check_max n].

Inductive issue_code : Type :=
| too_small
| too_big.

(** zod compares [input.data.length] with the bound. *)
Definition run_check (c : check) (data : string) : option issue_code :=
  match c with
  | check_min n =>
      if Nat.ltb (String.length data) n then Some too_small else None
  | check_max n =>
      if Nat.ltb n (String.length data) then Some too_big else None
  end.

(** Every check runs; each failing one contributes an issue. *)
Fixpoint parse_string (s : string_schema) (data : string) : list issue_code :=
  match s with
  | [] => []
  | c :: s' =>
      match run_check c data with
      | Some i => i :: parse_string s' data
      | None => parse_string s' data
      end
  end.

End z.

(** Method chaining: [s |> z.min 1 |> z.max 50] is [s.min(1).max(50)]. *)
Notation "s |> m" := (m s) (at level 45, left associativity, only parsing).

(** [z.infer<typeof formSchema>]: the Draft. *)
Record FormValues : Type := mkValues {
  title : string;
  content : string;
  categoryId : string
}.

Inductive FieldName : Type :=
| f_title
| f_content
| f_categoryId.

(** [z.object({ title: ..., content: ..., categoryId: ... })]. *)
Record ObjectSchema : Type := z_object {
  s_title : z.string_schema;
  s_content : z.string_schema;
  s_categoryId : z.string_schema
}.

Definition formSchema : ObjectSchema :=
  z_object
    (z.string_ |> z.min 1 |> z.max 50)
    (z.string_ |> z.min 1 |> z.max 500)
    (z.string_ |> z.min 1).

(** An issue carries the path of the field and the code of the check. *)
Definition Issue : Type := FieldName * z.issue_code.

(** [schema.safeParse(values)]: the issues, field by field. *)
Definition safeParse (s : ObjectSchema) (v : FormValues) : list Issue :=
  map (pair f_title) (z.parse_string (s_title s) (title v))
  ++ map (pair f_content) (z.parse_string (s_content s) (content v))
  ++ map (pair f_categoryId) (z.parse_string (s_categoryId s) (categoryId v)).

(** [zodResolver(formSchema)] reports a valid form when there is no issue. *)
Definition isEmptyObject {A : Type} (errors : list A) : bool :=
  match errors with
  | [] => true
  | _ :: _ => false
  end.

Definition zodResolver (s : ObjectSchema) (v : FormValues) : bool :=
  isEmptyObject (safeParse s v).

(* ================================================================== *)
(** ** Collaborators: their data *)

(** Modelled from the spec: the declaration of [IPost] lives in [@/types],
    which is not part of the sources at hand.  The specification gives a
    loaded post as [{id:1, title:"Hello", content:"World", categoryId:7}]:
    two numeric identifiers and two strings. *)
Module IPost.
Record t : Type := mk {
  id : Z;
  title : string;
  content : string;
  categoryId : Z
}.
End IPost.

(** The argument of [toast(...)]. *)
Module Toast.
Inductive Variant : Type :=
| destructive.

Record t : Type := mk {
  title : string;
  description : string;
  variant : option Variant
}.
End Toast.

(** The argument of [ApiService.update(...)]. *)
Module UpdateArgs.
Record t : Type := mk {
  path : string;
  id : string;
  body : FormValues
}.
End UpdateArgs.

(** Query keys of the data-fetching layer: arrays of strings and numbers,
    such as [["posts"]] and [["post", post.id]]. *)
Inductive QueryKeyPart : Type :=
| KStr (s : string)
| KNum (n : Z).

Definition QueryKey : Type := list QueryKeyPart.

(** One entry of the query cache: its key, the posts it holds and the
    flag that [query.invalidate()] raises. *)
Record Query : Type := mkQuery {
  queryKey : QueryKey;
  data : list IPost.t;
  isInvalidated : bool
}.

(** The filters handed to [invalidateQueries]. *)
Record QueryFilters : Type := mkFilters {
  filterKey : QueryKey;
  exact : bool
}.

Definition QueryKeyPart_eqb (a b : QueryKeyPart) : bool :=
  match a, b with
  | KStr s, KStr t => String.eqb s t
  | KNum n, KNum m => Z.eqb n m
  | _, _ => false
  end.

(** Equality of the hashes of two keys. *)
Fixpoint QueryKey_eqb (a b : QueryKey) : bool :=
  match a, b with
  | [], [] => true
  | x :: a', y :: b' => QueryKeyPart_eqb x y && QueryKey_eqb a' b'
  | _, _ => false
  end.

(** [partialMatchKey(a, b)]: every index of [b] matches in [a]. *)
Fixpoint partialMatchKey (a b : QueryKey) : bool :=
  match b with
  | [] => true
  | y :: b' =>
      match a with
      | [] => false
      | x :: a' => QueryKeyPart_eqb x y && partialMatchKey a' b'
      end
  end.

Definition matchQuery (filters : QueryFilters) (q : Query) : bool :=
  if exact filters
  then QueryKey_eqb (queryKey q) (filterKey filters)
  else partialMatchKey (queryKey q) (filterKey filters).

Definition invalidate (q : Query) : Query :=
  mkQuery (queryKey q) (data q) true.

(* ================================================================== *)
(** ** The component's world *)

(** What the form library keeps for this form: the current values (the
    Draft) and the cached default values.  Field errors, dirty and touched
    flags are not part of the model. *)
Record FormControl : Type := mkControl {
  defaultValues : FormValues;
  formValues : FormValues
}.

(** The effects a handler performs, in the vocabulary of the source. *)
Inductive Effect : Type :=
| Trigger (v : FormValues) (isValid : bool)    (* form.trigger() *)
| ApiUpdate (args : UpdateArgs.t)              (* ApiService.update(..) *)
| InvalidateQueries (filters : QueryFilters)   (* queryClient.invalidateQueries(..) *)
| FormReset (v : option FormValues)            (* form.reset(..) *)
| SetCharacterCount (n : nat)                  (* setCharacterCount(..) *)
| ShowToast (t : Toast.t)                      (* toast(..) *)
| FieldChange (name : FieldName) (value : string). (* field.onChange(..) *)

Record World : Type := mkWorld {
  control : FormControl;       (* useForm *)
  characterCount : nat;        (* useState *)
  queryCache : list Query;     (* useQueryClient *)
  trace : list Effect          (* effects so far, oldest first *)
}.

Definition emit (e : Effect) (w : World) : World :=
  mkWorld (control w) (characterCount w) (queryCache w) (trace w ++ [e]).

Definition set_control (c : FormControl) (w : World) : World :=
  mkWorld c (characterCount w) (queryCache w) (trace w).

Definition set_characterCount (n : nat) (w : World) : World :=
  mkWorld (control w) n (queryCache w) (trace w).

Definition set_queryCache (qs : list Query) (w : World) : World :=
  mkWorld (control w) (characterCount w) qs (trace w).

(** The Draft of a world. *)
Definition draft (w : World) : FormValues := formValues (control w).

(* ================================================================== *)
(** ** Asynchronous computations *)

Inductive Outcome (A : Type) : Type :=
| Resolved (a : A)
| Rejected (e : JsError).

Arguments Resolved {A} a.
Arguments Rejected {A} e.

Definition Async (A : Type) : Type := World -> Outcome A * World.

Definition ret {A : Type} (a : A) : Async A :=
  fun w => (Resolved a, w).

Definition throw {A : Type} (e : JsError) : Async A :=
  fun w => (Rejected e, w).

(** [await]: run [c], then continue with its value; a rejection skips the
    continuation.  What [c] did to the world stays done. *)
Definition bind {A B : Type} (c : Async A) (k : A -> Async B) : Async B :=
  fun w =>
    match c w with
    | (Resolved a, w') => k a w'
    | (Rejected e, w') => (Rejected e, w')
    end.

(** [try { c } catch (error) { handler }]. *)
Definition try_catch {A : Type} (c : Async A) (handler : JsError -> Async A)
  : Async A :=
  fun w =>
    match c w with
    | (Resolved a, w') => (Resolved a, w')
    | (Rejected e, w') => handler e w'
    end.

Declare Scope async_scope.
Delimit Scope async_scope with async.
Bind Scope async_scope with Async.

Notation "x <- c ;; k" := (bind c (fun x => k))
  (at level 61, c at next level, right associativity) : async_scope.
Notation "c ;; k" := (bind c (fun _ => k))
  (at level 61, right associativity) : async_scope.

Local Open Scope async_scope.

(** Run a computation: its outcome and the world it leaves. *)
Definition outcome {A : Type} (c : Async A) (w : World) : Outcome A := fst (c w).
Definition after {A : Type} (c : Async A) (w : World) : World := snd (c w).

(* ================================================================== *)
(** ** Collaborators: their operations *)

(** The form library. *)
Module form.

(** [form.trigger()]: run the resolver on the current values. *)
Definition trigger : Async bool :=
  fun w =>
    let isValid := zodResolver formSchema (draft w) in
    (Resolved isValid, emit (Trigger (draft w) isValid) w).

(** [form.reset(values?)], as the library implements it: the values to
    restore are the argument when there is one and the cached default
    values otherwise; unless the [keepDefaultValues] option is passed
    (it never is here) they become the cached default values; and they
    become the current values.  So the values given to one [reset] are
    what a later [reset()] without argument goes back to. *)
Definition reset (values : option FormValues) : Async unit :=
  fun w =>
    let updatedValues :=
      match values with
      | Some v => v
      | None => defaultValues (control w)
      end in
    (Resolved tt,
     emit (FormReset values)
       (set_control (mkControl updatedValues updatedValues) w)).

(** [field.onChange(value)] of the [content] field. *)
Definition content_onChange (value : string) : Async unit :=
  fun w =>
    let c := control w in
    let v := formValues c in
    (Resolved tt,
     emit (FieldChange f_content value)
       (set_control
          (mkControl (defaultValues c)
             (mkValues (title v) value (categoryId v))) w)).

End form.

(** Lines 46-53: [useForm] with the resolver of [formSchema] and three
    empty strings as default values. *)
Definition useForm : FormControl :=
  let defaults := mkValues "" "" "" in
  mkControl defaults defaults.

(** The setter of [useState]. *)
Definition setCharacterCount (n : nat) : Async unit :=
  fun w => (Resolved tt, emit (SetCharacterCount n) (set_characterCount n w)).

(** [toast(...)]: fire and forget. *)
Definition toast (t : Toast.t) : Async unit :=
  fun w => (Resolved tt, emit (ShowToast t) w).

(** [queryClient.invalidateQueries(filters)]: every cached query that
    matches the filters is invalidated; the others are not touched. *)
Definition invalidateQueries (filters : QueryFilters) : Async unit :=
  fun w =>
    (Resolved tt,
     emit (InvalidateQueries filters)
       (set_queryCache
          (map (fun q => if matchQuery filters q then invalidate q else q)
             (queryCache w)) w)).

(* ================================================================== *)
(** ** The component (lines 30-205) *)

Section PostUpdateForm.

(** [ApiService.update] lives in [@/utils/api.service]; the component
    only sees whether the request resolves or rejects. *)
Variable ApiService_update : UpdateArgs.t -> Outcome unit.

(** The [post] prop. *)
Variable post : IPost.t.

Definition ApiService_update_call (args : UpdateArgs.t) : Async unit :=
  fun w => (ApiService_update args, emit (ApiUpdate args) w).

(** Lines 70-72: [useState(currentPost?.content.length || 0)]. *)
Definition initialCharacterCount (currentPost : option IPost.t) : nat :=
  match currentPost with
  | Some p => String.length (IPost.content p)
  | None => 0
  end.

(** The world at the first render. *)
Definition mount (currentPost : option IPost.t) (cache : list Query) : World :=
  mkWorld useForm (initialCharacterCount currentPost) cache [].

(** Lines 55-64: the effect that runs when [isLoading] or [currentPost]
    change. *)
Definition populateEffect (isLoading : bool) (currentPost : option IPost.t)
  : Async unit :=
  match negb isLoading, currentPost with
  | true, Some currentPost =>
      form.reset
        (Some (mkValues (IPost.title currentPost)
                        (IPost.content currentPost)
                        (String_of_number (IPost.categoryId currentPost)))) ;;
      setCharacterCount (String.length (IPost.content currentPost))
  | _, _ => ret tt
  end.

(** Lines 74-81.  [value] is [event.target.value]. *)
Definition handleContentChange (value : string)
  (onChange : string -> Async unit) : Async unit :=
  setCharacterCount (String.length value) ;;
  onChange value.

Definition invalidFormToast : Toast.t :=
  Toast.mk "Erreur" "Le formulaire n'est pas valide !"
    (Some Toast.destructive).

Definition successToast : Toast.t :=
  Toast.mk "Succès" "Votre post a bien été modifié !" None.

Definition failureToast : Toast.t :=
  Toast.mk "Erreur"
    "Une erreur est survenue lors de la modification du post."
    (Some Toast.destructive).

(** Lines 83-123. *)
Definition onSubmit (values : FormValues) : Async unit :=
  isFormValid <- form.trigger ;;
  (if negb isFormValid
   then toast invalidFormToast ;;
        throw (MkError "Form is not valid")
   else ret tt) ;;
  try_catch
    (ApiService_update_call
       (UpdateArgs.mk "/posts" (String_of_number (IPost.id post)) values) ;;
     invalidateQueries (mkFilters [KStr "posts"] true) ;;
     form.reset None ;;
     setCharacterCount 0 ;;
     toast successToast)
    (fun error =>
       toast failureToast ;;
       throw error).

(** Lines 165-180: the markup of the counter, [None] for [null]. *)
Record CounterView : Type := mkCounter {
  className : string;
  text : string
}.

Definition counterView (characterCount : nat) : option CounterView :=
  if Nat.ltb 0 characterCount
  then Some (mkCounter
               (" " ++ (if Nat.ltb 400 characterCount
                        then "text-red-500/50"
                        else if Nat.ltb 200 characterCount
                             then "text-yellow-500/50"
                             else "text-black/50"))
               (String_of_length characterCount ++ "/500"))
  else None.

End PostUpdateForm.

(* ================================================================== *)
(** ** Reading a trace *)

(** The update requests that went out. *)
Fixpoint apiCalls (tr : list Effect) : list UpdateArgs.t :=
  match tr with
  | [] => []
  | ApiUpdate args :: tr' => args :: apiCalls tr'
  | _ :: tr' => apiCalls tr'
  end.

(** The notifications that were shown. *)
Fixpoint toasts (tr : list Effect) : list Toast.t :=
  match tr with
  | [] => []
  | ShowToast t :: tr' => t :: toasts tr'
  | _ :: tr' => toasts tr'
  end.

(** The cache invalidation requests. *)
Fixpoint invalidations (tr : list Effect) : list QueryFilters :=
  match tr with
  | [] => []
  | InvalidateQueries f :: tr' => f :: invalidations tr'
  | _ :: tr' => invalidations tr'
  end.

(** The steps of the local reset: the form reset and the counter reset. *)
Definition isReset (e : Effect) : bool :=
  match e with
  | FormReset _ | SetCharacterCount _ => true
  | _ => false
  end.

(** The place of each kind of effect in the order of a submission:
    validation, network call, cache invalidation, local reset (the form,
    then the counter), notification.  A field change is no step of a
    submission and comes last. *)
Definition stepOrder (e : Effect) : nat :=
  match e with
  | Trigger _ _ => 0
  | ApiUpdate _ => 1
  | InvalidateQueries _ => 2
  | FormReset _ => 3
  | SetCharacterCount _ => 4
  | ShowToast _ => 5
  | FieldChange _ _ => 6
  end.

Definition before (a b : Effect) : Prop := stepOrder a < stepOrder b.

(* ================================================================== *)
(** ** The runs of a submission, named *)

Section SubmitRuns.

Variable post : IPost.t.

(** The request that a submission of [values] sends. *)
Definition updateArgs (values : FormValues) : UpdateArgs.t :=
  UpdateArgs.mk "/posts" (String_of_number (IPost.id post)) values.

Definition postsFilter : QueryFilters := mkFilters [KStr "posts"] true.

(** The world after a successful submission. *)
Definition successWorld (values : FormValues) (w : World) : World :=
  mkWorld
    (mkControl (defaultValues (control w)) (defaultValues (control w)))
    0
    (map (fun q => if matchQuery postsFilter q then invalidate q else q)
       (queryCache w))
    (trace w ++ [Trigger (draft w) true;
                 ApiUpdate (updateArgs values);
                 InvalidateQueries postsFilter;
                 FormReset None;
                 SetCharacterCount 0;
                 ShowToast successToast]).

End SubmitRuns.

(* ================================================================== *)
(** ** Sample data *)

(** The post of the specification's scenario. *)
Definition helloPost : IPost.t := IPost.mk 1 "Hello" "World" 7.

(** A server that accepts every update, and one that refuses them all. *)
Definition alwaysResolves (_ : UpdateArgs.t) : Outcome unit := Resolved tt.

Definition alwaysRejects (_ : UpdateArgs.t) : Outcome unit :=
  Rejected (MkError "Internal Server Error").

(** A cache with the listing, a paginated and a filtered variant of it,
    and the single post. *)
Definition sampleCache : list Query :=
  [ mkQuery [KStr "posts"] [helloPost] false;
    mkQuery [KStr "posts"; KNum 2] [] false;
    mkQuery [KStr "posts"; KStr "category"; KNum 7] [helloPost] false;
    mkQuery [KStr "post"; KNum 1] [helloPost] false ].

(** The form right after the first render, and once [helloPost] has been
    loaded into it. *)
Definition emptyWorld : World := mount None sampleCache.

Definition loadedWorld : World :=
  after (populateEffect false (Some helloPost)) emptyWorld.

(* ================================================================== *)
(** ** The query, the field bindings and the submit event *)

(** Lines 37-42: the key under which [useQuery] caches the post that the
    form edits. *)
Definition postQueryKey (post : IPost.t) : QueryKey :=
  [KStr "post"; KNum (IPost.id post)].

(** The values with one field replaced. *)
Definition setField (name : FieldName) (value : string) (v : FormValues)
  : FormValues :=
  match name with
  | f_title => mkValues value (content v) (categoryId v)
  | f_content => mkValues (title v) value (categoryId v)
  | f_categoryId => mkValues (title v) (content v) value
  end.

(** [field.onChange(value)] of the field [name]: the binding that
    [{...field}] gives to the title input (line 138) and that the category
    picker receives (line 194). *)
Definition fieldOnChange (name : FieldName) (value : string) : Async unit :=
  fun w =>
    let c := control w in
    (Resolved tt,
     emit (FieldChange name value)
       (set_control
          (mkControl (defaultValues c) (setField name value (formValues c)))
          w)).

(** Line 127: [form.handleSubmit(onValid)], the handler of the form's
    submit event.  The library runs the resolver on the current values.
    Without errors it awaits [onValid] on the values the resolver returns,
    which for a schema of plain strings are the current values, and a
    rejection of [onValid] is the rejection of the handler.  With errors
    it would call an [onInvalid] callback; none is passed here, so
    nothing else happens. *)
Definition handleSubmit (onValid : FormValues -> Async unit) : Async unit :=
  fun w =>
    if zodResolver formSchema (draft w)
    then onValid (draft w) w
    else (Resolved tt, w).

(** Modelled from the spec: [PostSelectCategories] (line 17) is not among
    the sources.  It receives the binding of the [categoryId] field and
    emits the selected identifier back into that field. *)
Definition PostSelectCategories_select (value : string) : Async unit :=
  fieldOnChange f_categoryId value.

(** What can happen to the mounted component. *)
Inductive Event : Type :=
| QueryChanged (isLoading : bool) (currentPost : option IPost.t)
                                    (* the effect of lines 55-64 runs *)
| TitleInput (value : string)       (* change of the title input *)
| ContentInput (value : string)     (* change of the textarea *)
| CategorySelect (value : string)   (* the picker emits an identifier *)
| SubmitEvent.                      (* submit of the form *)

Section Session.

Variable ApiService_update : UpdateArgs.t -> Outcome unit.
Variable post : IPost.t.

(** The handler that each event reaches in the markup (lines 125-204). *)
Definition handle (ev : Event) : Async unit :=
  match ev with
  | QueryChanged isLoading currentPost => populateEffect isLoading currentPost
  | TitleInput value => fieldOnChange f_title value
  | ContentInput value => handleContentChange value form.content_onChange
  | CategorySelect value => PostSelectCategories_select value
  | SubmitEvent => handleSubmit (onSubmit ApiService_update post)
  end.

(** A session: the events one after the other.  A handler that rejects
    leaves the world it reached. *)
Definition session (evs : list Event) (w : World) : World :=
  fold_left (fun w ev => after (handle ev) w) evs w.

End Session.

(** An event that loads a post into the form. *)
Definition populates (ev : Event) : bool :=
  match ev with
  | QueryChanged false (Some _) => true
  | _ => false
  end.

(** The counter follows the content. *)
Definition countInSync (w : World) : Prop :=
  characterCount w = String.length (content (draft w)).


(** The values that the populate effect gives to the form for a loaded
    post (lines 57-61). *)
Definition loadedValues (p : IPost.t) : FormValues :=
  mkValues (IPost.title p) (IPost.content p)
    (String_of_number (IPost.categoryId p)).

(** A text of [n] letters. *)
Definition letters (n : nat) : string := String.concat "" (repeat "a" n).

(** A second post with the editable fields of [helloPost]. *)
Definition helloAgain : IPost.t := IPost.mk 2 "Hello" "World" 7.

(* ================================================================== *)
(** ** The schema *)

Lemma length_zero_empty (s : string) : String.length s = 0 <-> s = "".
Proof.
  destruct s as [|c s]; simpl; split; intro H; try reflexivity; discriminate.
Qed.

Lemma nonempty_length (s : string) : s <> "" <-> 1 <= String.length s.
Proof.
  rewrite <- length_zero_empty. lia.
Qed.

(** A string passes [z.string().min(lo).max(hi)] exactly when its length
    lies between the bounds. *)
Lemma parse_min_max (lo hi : nat) (s : string) :
  z.parse_string (z.string_ |> z.min lo |> z.max hi) s = []
  <-> lo <= String.length s <= hi.
Proof.
  unfold z.string_, z.min, z.max; simpl.
  destruct (Nat.ltb_spec (String.length s) lo);
    destruct (Nat.ltb_spec hi (String.length s));
    split; intro H'; try discriminate; try reflexivity; lia.
Qed.

Lemma parse_min (lo : nat) (s : string) :
  z.parse_string (z.string_ |> z.min lo) s = [] <-> lo <= String.length s.
Proof.
  unfold z.string_, z.min; simpl.
  destruct (Nat.ltb_spec (String.length s) lo);
    split; intro H'; try discriminate; try reflexivity; lia.
Qed.

Lemma isEmptyObject_nil {A : Type} (l : list A) :
  isEmptyObject l = true <-> l = [].
Proof.
  destruct l; simpl; split; intro H; try reflexivity; discriminate.
Qed.

Lemma map_nil_iff {A B : Type} (f : A -> B) (l : list A) :
  map f l = [] <-> l = [].
Proof.
  destruct l; simpl; split; intro H; try reflexivity; discriminate.
Qed.

Lemma app_nil_iff {A : Type} (l1 l2 : list A) :
  l1 ++ l2 = [] <-> l1 = [] /\ l2 = [].
Proof.
  split.
  - apply app_eq_nil.
  - intros [-> ->]. reflexivity.
Qed.

(** The resolver in terms of lengths. *)
Lemma zodResolver_lengths (v : FormValues) :
  zodResolver formSchema v = true
  <-> (1 <= String.length (title v) <= 50)
      /\ (1 <= String.length (content v) <= 500)
      /\ 1 <= String.length (categoryId v).
Proof.
  unfold zodResolver, safeParse, formSchema.
  rewrite isEmptyObject_nil.
  cbn [s_title s_content s_categoryId].
  rewrite !app_nil_iff, !map_nil_iff.
  rewrite !parse_min_max, parse_min.
  tauto.
Qed.

(** A draft with an empty field does not pass. *)
Lemma empty_field_invalid (v : FormValues) :
  title v = "" \/ content v = "" \/ categoryId v = "" ->
  zodResolver formSchema v = false.
Proof.
  intro H.
  destruct (zodResolver formSchema v) eqn:E; [ | reflexivity ].
  apply zodResolver_lengths in E.
  destruct E as [[Ht _] [[Hc _] Hk]].
  rewrite <- nonempty_length in Ht, Hc, Hk.
  destruct H as [H | [H | H]]; contradiction.
Qed.

(** C2.  A draft passes the schema if and only if its title is non-empty
    and has at most 50 characters, its content is non-empty and has at most
    500 characters, and its category identifier is a non-empty string. *)
Theorem formSchema_valid_iff (v : FormValues) :
  zodResolver formSchema v = true
  <-> (title v <> "" /\ String.length (title v) <= 50)
      /\ (content v <> "" /\ String.length (content v) <= 500)
      /\ categoryId v <> "".
Proof.
  rewrite zodResolver_lengths, !nonempty_length.
  tauto.
Qed.

(* ================================================================== *)
(** ** The three runs of [onSubmit] *)

Section Submit.

Variable ApiService_update : UpdateArgs.t -> Outcome unit.
Variable post : IPost.t.

Ltac run_submit H :=
  unfold onSubmit, bind, try_catch, form.trigger,
    ApiService_update_call;
  cbv zeta; rewrite H; cbn [negb].

Lemma onSubmit_invalid (values : FormValues) (w : World) :
  zodResolver formSchema (draft w) = false ->
  onSubmit ApiService_update post values w
  = (Rejected (MkError "Form is not valid"),
     mkWorld (control w) (characterCount w) (queryCache w)
       (trace w ++ [Trigger (draft w) false; ShowToast invalidFormToast])).
Proof.
  intro H. run_submit H.
  unfold toast, throw, emit; cbn.
  rewrite <- app_assoc. reflexivity.
Qed.

Lemma onSubmit_failure (values : FormValues) (w : World) (e : JsError) :
  zodResolver formSchema (draft w) = true ->
  ApiService_update (updateArgs post values) = Rejected e ->
  onSubmit ApiService_update post values w
  = (Rejected e,
     mkWorld (control w) (characterCount w) (queryCache w)
       (trace w ++ [Trigger (draft w) true;
                    ApiUpdate (updateArgs post values);
                    ShowToast failureToast])).
Proof.
  intros H Hapi. run_submit H.
  unfold ret. fold (updateArgs post values). rewrite Hapi.
  unfold toast, throw, emit; cbn.
  rewrite <- !app_assoc. reflexivity.
Qed.

Lemma onSubmit_success (values : FormValues) (w : World) :
  zodResolver formSchema (draft w) = true ->
  ApiService_update (updateArgs post values) = Resolved tt ->
  onSubmit ApiService_update post values w = (Resolved tt, successWorld post values w).
Proof.
  intros H Hapi. run_submit H.
  unfold ret. fold (updateArgs post values). rewrite Hapi.
  unfold invalidateQueries, form.reset, setCharacterCount, toast, emit,
    set_control, set_queryCache, set_characterCount, successWorld; cbn.
  rewrite <- !app_assoc. reflexivity.
Qed.

End Submit.

(* ================================================================== *)
(** ** Lemmas on traces and on the query cache *)

Lemma apiCalls_app (tr1 tr2 : list Effect) :
  apiCalls (tr1 ++ tr2) = apiCalls tr1 ++ apiCalls tr2.
Proof.
  induction tr1 as [|e tr1 IH]; simpl; [ reflexivity | ].
  destruct e; simpl; rewrite IH; reflexivity.
Qed.

Lemma toasts_app (tr1 tr2 : list Effect) :
  toasts (tr1 ++ tr2) = toasts tr1 ++ toasts tr2.
Proof.
  induction tr1 as [|e tr1 IH]; simpl; [ reflexivity | ].
  destruct e; simpl; rewrite IH; reflexivity.
Qed.

Lemma invalidations_app (tr1 tr2 : list Effect) :
  invalidations (tr1 ++ tr2) = invalidations tr1 ++ invalidations tr2.
Proof.
  induction tr1 as [|e tr1 IH]; simpl; [ reflexivity | ].
  destruct e; simpl; rewrite IH; reflexivity.
Qed.

Lemma QueryKeyPart_eqb_eq (a b : QueryKeyPart) :
  QueryKeyPart_eqb a b = true <-> a = b.
Proof.
  destruct a as [s|n], b as [t|m]; simpl.
  - rewrite String.eqb_eq. split; intro H; [ subst | inversion H ]; reflexivity.
  - split; intro H; discriminate.
  - split; intro H; discriminate.
  - rewrite Z.eqb_eq. split; intro H; [ subst | inversion H ]; reflexivity.
Qed.

Lemma QueryKey_eqb_eq (a b : QueryKey) :
  QueryKey_eqb a b = true <-> a = b.
Proof.
  revert b.
  induction a as [|x a IH]; intros [|y b]; simpl;
    try (split; intro H; [ reflexivity || discriminate | reflexivity || discriminate ]).
  rewrite andb_true_iff, QueryKeyPart_eqb_eq, IH.
  split.
  - intros [-> ->]. reflexivity.
  - intro H. inversion H. split; reflexivity.
Qed.

(** An exact filter matches a query exactly when the keys are equal. *)
Lemma matchQuery_exact (k : QueryKey) (q : Query) :
  matchQuery (mkFilters k true) q = true <-> queryKey q = k.
Proof.
  unfold matchQuery; simpl. apply QueryKey_eqb_eq.
Qed.

(** Invalidation by an exact key, entry by entry. *)
Lemma invalidate_exact_nth (k : QueryKey) (qs : list Query) (i : nat) (q : Query) :
  nth_error qs i = Some q ->
  (queryKey q = k ->
   nth_error
     (map (fun q => if matchQuery (mkFilters k true) q then invalidate q else q) qs) i
   = Some (invalidate q))
  /\ (queryKey q <> k ->
      nth_error
        (map (fun q => if matchQuery (mkFilters k true) q then invalidate q else q) qs) i
      = Some q).
Proof.
  intro Hq.
  rewrite nth_error_map, Hq; simpl.
  split; intro Hk.
  - apply (matchQuery_exact k q) in Hk. rewrite Hk. reflexivity.
  - destruct (matchQuery (mkFilters k true) q) eqn:E; [ | reflexivity ].
    apply matchQuery_exact in E. contradiction.
Qed.

(* ================================================================== *)
(** ** Properties of a submission *)

Section SubmitProperties.

Variable ApiService_update : UpdateArgs.t -> Outcome unit.
Variable post : IPost.t.

(** Split a goal about a submission into its three runs. *)
Ltac submit_cases values w :=
  unfold outcome, after;
  let Hv := fresh "Hv" in
  let Hapi := fresh "Hapi" in
  let e := fresh "e" in
  destruct (zodResolver formSchema (draft w)) eqn:Hv;
  [ destruct (ApiService_update (updateArgs post values)) as [[]|e] eqn:Hapi;
    [ rewrite (onSubmit_success ApiService_update post values w Hv Hapi)
    | rewrite (onSubmit_failure ApiService_update post values w e Hv Hapi) ]
  | rewrite (onSubmit_invalid ApiService_update post values w Hv) ];
  cbn [fst snd].

(** C1.  When the title, the content or the category identifier of the
    draft is empty, [onSubmit] rejects, shows one notification, whose
    variant is destructive, and sends no update request. *)
Theorem submit_rejects_empty_field (values : FormValues) (w : World) :
  title (draft w) = "" \/ content (draft w) = "" \/ categoryId (draft w) = "" ->
  outcome (onSubmit ApiService_update post values) w = Rejected (MkError "Form is not valid")
  /\ toasts (trace (after (onSubmit ApiService_update post values) w))
     = toasts (trace w) ++ [invalidFormToast]
  /\ Toast.variant invalidFormToast = Some Toast.destructive
  /\ apiCalls (trace (after (onSubmit ApiService_update post values) w)) = apiCalls (trace w).
Proof.
  intro Hempty.
  apply empty_field_invalid in Hempty.
  unfold outcome, after.
  rewrite (onSubmit_invalid ApiService_update post values w Hempty); simpl.
  rewrite toasts_app, apiCalls_app; simpl.
  rewrite app_nil_r.
  repeat split; reflexivity.
Qed.

(** C3.  The effects of a submission come in the order validation,
    update request, cache invalidation, local reset (form, then
    counter), notification: the effects that a call adds are strictly
    increasing for that order and begin with the validation.  A reset
    step occurs only when the call resolves, and then the reset steps
    come right before the success notification, which is last. *)
Theorem submit_effects_ordered (values : FormValues) (w : World) :
  exists effects,
    trace (after (onSubmit ApiService_update post values) w) = trace w ++ effects
    /\ StronglySorted before effects
    /\ (exists isValid, hd_error effects = Some (Trigger (draft w) isValid))
    /\ (existsb isReset effects = true
        <-> outcome (onSubmit ApiService_update post values) w = Resolved tt)
    /\ (outcome (onSubmit ApiService_update post values) w = Resolved tt ->
        exists pre,
          effects = pre ++ [FormReset None; SetCharacterCount 0;
                            ShowToast successToast]
          /\ existsb isReset pre = false).
Proof.
  submit_cases values w.
  - exists [Trigger (draft w) true;
            ApiUpdate (updateArgs post values);
            InvalidateQueries postsFilter;
            FormReset None;
            SetCharacterCount 0;
            ShowToast successToast].
    split; [ reflexivity | ].
    split; [ repeat constructor; unfold before; simpl; lia | ].
    split; [ eexists; reflexivity | ].
    split; [ split; reflexivity | ].
    intros _.
    exists [Trigger (draft w) true;
            ApiUpdate (updateArgs post values);
            InvalidateQueries postsFilter].
    split; reflexivity.
  - exists [Trigger (draft w) true;
            ApiUpdate (updateArgs post values);
            ShowToast failureToast].
    split; [ reflexivity | ].
    split; [ repeat constructor; unfold before; simpl; lia | ].
    split; [ eexists; reflexivity | ].
    split; [ split; intro H; discriminate | intro H; discriminate ].
  - exists [Trigger (draft w) false; ShowToast invalidFormToast].
    split; [ reflexivity | ].
    split; [ repeat constructor; unfold before; simpl; lia | ].
    split; [ eexists; reflexivity | ].
    split; [ split; intro H; discriminate | intro H; discriminate ].
Qed.

(** C4.  When the draft is valid and the update request fails, [onSubmit]
    shows a destructive notification and rejects with the error of the
    request; the draft is what it was (so it still holds the submitted
    values), no query is invalidated and no reset step is performed. *)
Theorem submit_network_failure (values : FormValues) (w : World) (e : JsError) :
  zodResolver formSchema (draft w) = true ->
  ApiService_update (updateArgs post values) = Rejected e ->
  outcome (onSubmit ApiService_update post values) w = Rejected e
  /\ toasts (trace (after (onSubmit ApiService_update post values) w)) = toasts (trace w) ++ [failureToast]
  /\ Toast.variant failureToast = Some Toast.destructive
  /\ control (after (onSubmit ApiService_update post values) w) = control w
  /\ (draft w = values -> draft (after (onSubmit ApiService_update post values) w) = values)
  /\ queryCache (after (onSubmit ApiService_update post values) w) = queryCache w
  /\ invalidations (trace (after (onSubmit ApiService_update post values) w)) = invalidations (trace w)
  /\ characterCount (after (onSubmit ApiService_update post values) w) = characterCount w
  /\ exists effects,
       trace (after (onSubmit ApiService_update post values) w) = trace w ++ effects
       /\ existsb isReset effects = false.
Proof.
  intros Hv Hapi.
  unfold outcome, after.
  rewrite (onSubmit_failure ApiService_update post values w e Hv Hapi); simpl.
  rewrite toasts_app, invalidations_app; simpl.
  rewrite app_nil_r.
  repeat split; try reflexivity.
  - intro H. exact H.
  - eexists. split; reflexivity.
Qed.

(** C8.  A successful submission sends one invalidation request, for
    the exact key ["posts"]: the cached queries with that key are
    invalidated and every query with another key is left as it was. *)
Theorem success_invalidates_only_posts (values : FormValues) (w : World) :
  zodResolver formSchema (draft w) = true ->
  ApiService_update (updateArgs post values) = Resolved tt ->
  invalidations (trace (after (onSubmit ApiService_update post values) w))
  = invalidations (trace w) ++ [mkFilters [KStr "posts"] true]
  /\ length (queryCache (after (onSubmit ApiService_update post values) w)) = length (queryCache w)
  /\ forall (i : nat) (q : Query),
       nth_error (queryCache w) i = Some q ->
       (queryKey q = [KStr "posts"] ->
        nth_error (queryCache (after (onSubmit ApiService_update post values) w)) i
        = Some (invalidate q))
       /\ (queryKey q <> [KStr "posts"] ->
           nth_error (queryCache (after (onSubmit ApiService_update post values) w)) i = Some q).
Proof.
  intros Hv Hapi.
  unfold after.
  rewrite (onSubmit_success ApiService_update post values w Hv Hapi); simpl.
  rewrite invalidations_app; simpl.
  split; [ reflexivity | ].
  split; [ apply length_map | ].
  intros i q Hq.
  apply invalidate_exact_nth. exact Hq.
Qed.

(** C9.  Submitting a draft that fails validation twice in a row rejects
    with the same error both times, shows the same notification both
    times, sends no update request either time and leaves the form, the
    counter and the cache as they were. *)
Theorem invalid_submit_idempotent (values : FormValues) (w : World) :
  zodResolver formSchema (draft w) = false ->
  outcome (onSubmit ApiService_update post values) w = Rejected (MkError "Form is not valid")
  /\ outcome (onSubmit ApiService_update post values) (after (onSubmit ApiService_update post values) w)
     = outcome (onSubmit ApiService_update post values) w
  /\ toasts (trace (after (onSubmit ApiService_update post values) w))
     = toasts (trace w) ++ [invalidFormToast]
  /\ toasts (trace (after (onSubmit ApiService_update post values) (after (onSubmit ApiService_update post values) w)))
     = toasts (trace (after (onSubmit ApiService_update post values) w)) ++ [invalidFormToast]
  /\ apiCalls (trace (after (onSubmit ApiService_update post values) w)) = apiCalls (trace w)
  /\ apiCalls (trace (after (onSubmit ApiService_update post values) (after (onSubmit ApiService_update post values) w)))
     = apiCalls (trace w)
  /\ control (after (onSubmit ApiService_update post values) (after (onSubmit ApiService_update post values) w)) = control w
  /\ characterCount (after (onSubmit ApiService_update post values) (after (onSubmit ApiService_update post values) w))
     = characterCount w
  /\ queryCache (after (onSubmit ApiService_update post values) (after (onSubmit ApiService_update post values) w))
     = queryCache w.
Proof.
  intro Hv.
  unfold outcome, after.
  rewrite (onSubmit_invalid ApiService_update post values w Hv); simpl.
  rewrite onSubmit_invalid by exact Hv; simpl.
  rewrite !toasts_app, !apiCalls_app; simpl.
  rewrite !app_nil_r.
  repeat split; reflexivity.
Qed.

(** C10.  A submission that rejects, for an invalid form or for a failed
    request, leaves the character count as it was before the call. *)
Theorem failed_submit_keeps_count (values : FormValues) (w : World) (e : JsError) :
  outcome (onSubmit ApiService_update post values) w = Rejected e ->
  characterCount (after (onSubmit ApiService_update post values) w) = characterCount w.
Proof.
  submit_cases values w; intro Hout.
  - discriminate.
  - reflexivity.
  - reflexivity.
Qed.

(** What a successful submission leaves in the form and in the counter:
    the form is back at its cached default values and the counter at 0. *)
Lemma success_reset_state (values : FormValues) (w : World) :
  zodResolver formSchema (draft w) = true ->
  ApiService_update (updateArgs post values) = Resolved tt ->
  draft (after (onSubmit ApiService_update post values) w) = defaultValues (control w)
  /\ characterCount (after (onSubmit ApiService_update post values) w) = 0.
Proof.
  intros Hv Hapi.
  unfold after.
  rewrite (onSubmit_success ApiService_update post values w Hv Hapi).
  split; reflexivity.
Qed.

End SubmitProperties.

(* ================================================================== *)
(** ** Population, edits and the counter *)

(** While the post is loading, or when there is none, the effect does
    nothing. *)
Lemma populateEffect_idle (isLoading : bool) (currentPost : option IPost.t)
  (w : World) :
  isLoading = true \/ currentPost = None ->
  populateEffect isLoading currentPost w = (Resolved tt, w).
Proof.
  intros [-> | ->]; [ reflexivity | ].
  destruct isLoading; reflexivity.
Qed.

(** C7.  Once the post [p] is loaded, the populate effect leaves a draft
    whose title and content are those of [p] and whose category identifier
    is the stringified category identifier of [p], and a character count
    equal to the length of the content of [p]. *)
Theorem populate_roundtrip (p : IPost.t) (w : World) :
  outcome (populateEffect false (Some p)) w = Resolved tt
  /\ draft (after (populateEffect false (Some p)) w)
     = mkValues (IPost.title p) (IPost.content p)
         (String_of_number (IPost.categoryId p))
  /\ characterCount (after (populateEffect false (Some p)) w)
     = String.length (IPost.content p).
Proof.
  repeat split; reflexivity.
Qed.

(** The scenario of the specification: identifier 7 becomes ["7"]. *)
Example populate_hello :
  draft loadedWorld = mkValues "Hello" "World" "7"
  /\ characterCount loadedWorld = 5.
Proof.
  split; reflexivity.
Qed.

(** After population the count is the length of the content. *)
Lemma populate_count (p : IPost.t) (w : World) :
  characterCount (after (populateEffect false (Some p)) w)
  = String.length (content (draft (after (populateEffect false (Some p)) w))).
Proof.
  reflexivity.
Qed.

(** After a keystroke in the content field the count is the length of the
    content, and the other fields are what they were. *)
Lemma handleContentChange_count (value : string) (w : World) :
  content (draft (after (handleContentChange value form.content_onChange) w))
  = value
  /\ characterCount (after (handleContentChange value form.content_onChange) w)
     = String.length value
  /\ title (draft (after (handleContentChange value form.content_onChange) w))
     = title (draft w)
  /\ categoryId (draft (after (handleContentChange value form.content_onChange) w))
     = categoryId (draft w).
Proof.
  repeat split; reflexivity.
Qed.

(** After a successful submission the count is the length of the content
    only if the cached default content is empty. *)
Lemma success_count_iff (ApiService_update : UpdateArgs.t -> Outcome unit)
  (post : IPost.t) (values : FormValues) (w : World) :
  zodResolver formSchema (draft w) = true ->
  ApiService_update (updateArgs post values) = Resolved tt ->
  characterCount (after (onSubmit ApiService_update post values) w)
  = String.length (content (draft (after (onSubmit ApiService_update post values) w)))
  <-> content (defaultValues (control w)) = "".
Proof.
  intros Hv Hapi.
  destruct (success_reset_state ApiService_update post values w Hv Hapi)
    as [-> ->].
  rewrite <- length_zero_empty.
  split; intro H; symmetry; exact H.
Qed.

(** C6.  The count does not follow the content through a successful
    submission of a loaded post: with ["Hello"], ["World"], ["7"] loaded
    and submitted, the update resolves, the form goes back to the loaded
    values, so the content is ["World"], of length 5, and the count is 0. *)
Theorem success_reset_count_mismatch :
  outcome (onSubmit alwaysResolves helloPost (draft loadedWorld)) loadedWorld
  = Resolved tt
  /\ content (draft (after (onSubmit alwaysResolves helloPost (draft loadedWorld))
                       loadedWorld))
     = "World"
  /\ characterCount (after (onSubmit alwaysResolves helloPost (draft loadedWorld))
                       loadedWorld)
     = 0
  /\ characterCount (after (onSubmit alwaysResolves helloPost (draft loadedWorld))
                       loadedWorld)
     <> String.length
          (content (draft (after (onSubmit alwaysResolves helloPost
                                    (draft loadedWorld)) loadedWorld))).
Proof.
  repeat split; try reflexivity.
  vm_compute. discriminate.
Qed.

(** C5.  The counter is a function of the count alone.  It is hidden
    exactly when the count is 0.  When shown, its text is the count
    followed by ["/500"], and its class is the red one exactly when the
    count exceeds 400, the yellow one exactly when the count exceeds 200
    without exceeding 400, and the neutral one exactly when the count is
    at most 200. *)
Theorem counterView_spec (n : nat) :
  (counterView n = None <-> n = 0)
  /\ forall v : CounterView,
       counterView n = Some v ->
       text v = (String_of_length n ++ "/500")%string
       /\ (className v = " text-red-500/50" <-> 400 < n)
       /\ (className v = " text-yellow-500/50" <-> 200 < n <= 400)
       /\ (className v = " text-black/50" <-> n <= 200).
Proof.
  unfold counterView.
  destruct (Nat.ltb_spec 0 n) as [Hpos | Hzero].
  - split; [ split; intro H; [ discriminate | lia ] | ].
    intros v Hv. injection Hv as <-. cbn [text className].
    split; [ reflexivity | ].
    destruct (Nat.ltb_spec 400 n) as [H4 | H4];
      [ | destruct (Nat.ltb_spec 200 n) as [H2 | H2] ];
      cbn [append];
      (split; [ split; intro H | split; split; intro H ]);
      try discriminate; try reflexivity; try lia.
  - split; [ split; intro H; [ lia | reflexivity ] | ].
    intros v Hv. discriminate.
Qed.

(* ================================================================== *)
(** ** The properties at the sample data *)

(** The empty form of the first render is rejected without a request. *)
Lemma submit_rejects_empty_field_witness :
  title (draft emptyWorld) = ""
  /\ outcome (onSubmit alwaysResolves helloPost (draft emptyWorld)) emptyWorld
     = Rejected (MkError "Form is not valid")
  /\ apiCalls (trace (after (onSubmit alwaysResolves helloPost (draft emptyWorld))
                        emptyWorld))
     = apiCalls (trace emptyWorld).
Proof.
  split; [ reflexivity | ].
  destruct (submit_rejects_empty_field alwaysResolves helloPost
              (draft emptyWorld) emptyWorld (or_introl eq_refl))
    as [Hout [_ [_ Hcalls]]].
  split; [ exact Hout | exact Hcalls ].
Defined.

(** The loaded form, submitted to a server that refuses the update. *)
Lemma submit_network_failure_witness :
  zodResolver formSchema (draft loadedWorld) = true
  /\ outcome (onSubmit alwaysRejects helloPost (draft loadedWorld)) loadedWorld
     = Rejected (MkError "Internal Server Error")
  /\ draft (after (onSubmit alwaysRejects helloPost (draft loadedWorld)) loadedWorld)
     = draft loadedWorld.
Proof.
  split; [ reflexivity | ].
  destruct (submit_network_failure alwaysRejects helloPost
              (draft loadedWorld) loadedWorld
              (MkError "Internal Server Error") eq_refl eq_refl)
    as [Hout [_ [_ [_ [Hdraft _]]]]].
  split; [ exact Hout | exact (Hdraft eq_refl) ].
Defined.

(** The loaded form, submitted to a server that accepts the update: the
    paginated variant of the listing, at index 1, stays as it was. *)
Lemma success_invalidates_only_posts_witness :
  zodResolver formSchema (draft loadedWorld) = true
  /\ nth_error
       (queryCache (after (onSubmit alwaysResolves helloPost (draft loadedWorld))
                      loadedWorld)) 0
     = Some (mkQuery [KStr "posts"] [helloPost] true)
  /\ nth_error
       (queryCache (after (onSubmit alwaysResolves helloPost (draft loadedWorld))
                      loadedWorld)) 1
     = Some (mkQuery [KStr "posts"; KNum 2] [] false).
Proof.
  split; [ reflexivity | ].
  destruct (success_invalidates_only_posts alwaysResolves helloPost
              (draft loadedWorld) loadedWorld eq_refl eq_refl)
    as [_ [_ Hnth]].
  split.
  - apply (Hnth 0 (mkQuery [KStr "posts"] [helloPost] false) eq_refl).
    reflexivity.
  - apply (Hnth 1 (mkQuery [KStr "posts"; KNum 2] [] false) eq_refl).
    discriminate.
Defined.

(** The empty form, submitted twice. *)
Lemma invalid_submit_idempotent_witness :
  zodResolver formSchema (draft emptyWorld) = false
  /\ outcome (onSubmit alwaysResolves helloPost (draft emptyWorld))
       (after (onSubmit alwaysResolves helloPost (draft emptyWorld)) emptyWorld)
     = outcome (onSubmit alwaysResolves helloPost (draft emptyWorld)) emptyWorld.
Proof.
  split; [ reflexivity | ].
  destruct (invalid_submit_idempotent alwaysResolves helloPost
              (draft emptyWorld) emptyWorld eq_refl)
    as [_ [Hsame _]].
  exact Hsame.
Defined.

(** The loaded form keeps its count of 5 when the server refuses. *)
Lemma failed_submit_keeps_count_witness :
  outcome (onSubmit alwaysRejects helloPost (draft loadedWorld)) loadedWorld
  = Rejected (MkError "Internal Server Error")
  /\ characterCount
       (after (onSubmit alwaysRejects helloPost (draft loadedWorld)) loadedWorld)
     = 5.
Proof.
  split; [ reflexivity | ].
  exact (failed_submit_keeps_count alwaysRejects helloPost
           (draft loadedWorld) loadedWorld
           (MkError "Internal Server Error") eq_refl).
Defined.

(* ================================================================== *)
(** ** More on a single submission *)

(** Split a goal about [onSubmit] into the three runs of the handler. *)
Ltac onSubmit_runs api post values w :=
  unfold outcome, after;
  let Hv := fresh "Hv" in
  let Hapi := fresh "Hapi" in
  let e := fresh "e" in
  destruct (zodResolver formSchema (draft w)) eqn:Hv;
  [ destruct (api (updateArgs post values)) as [[]|e] eqn:Hapi;
    [ rewrite (onSubmit_success api post values w Hv Hapi)
    | rewrite (onSubmit_failure api post values w e Hv Hapi) ]
  | rewrite (onSubmit_invalid api post values w Hv) ];
  cbn [fst snd].

Lemma invalidate_keeps_keys (f : QueryFilters) (qs : list Query) :
  map queryKey (map (fun q => if matchQuery f q then invalidate q else q) qs)
  = map queryKey qs.
Proof.
  rewrite map_map. apply map_ext.
  intro q. destruct (matchQuery f q); reflexivity.
Qed.

Lemma invalidate_keeps_data (f : QueryFilters) (qs : list Query) :
  map data (map (fun q => if matchQuery f q then invalidate q else q) qs)
  = map data qs.
Proof.
  rewrite map_map. apply map_ext.
  intro q. destruct (matchQuery f q); reflexivity.
Qed.

Section SubmitMore.

Variable ApiService_update : UpdateArgs.t -> Outcome unit.
Variable post : IPost.t.

(** X1.  [onSubmit] sends an update request exactly when the draft held
    by the form passes the schema, and then exactly one: to the path
    ["/posts"], for the stringified identifier of the [post] prop, with
    the [values] argument as body, whether or not [values] is the draft. *)
Theorem submit_request_iff_valid (values : FormValues) (w : World) :
  apiCalls (trace (after (onSubmit ApiService_update post values) w))
  = apiCalls (trace w)
    ++ (if zodResolver formSchema (draft w)
        then [UpdateArgs.mk "/posts" (String_of_number (IPost.id post)) values]
        else []).
Proof.
  onSubmit_runs ApiService_update post values w;
    cbn [trace successWorld]; rewrite apiCalls_app; reflexivity.
Qed.

(** X2.  Every call of [onSubmit] shows exactly one notification.  It is
    destructive exactly when the call rejects, and it is the success
    notification exactly when the call resolves. *)
Theorem submit_one_toast (values : FormValues) (w : World) :
  exists t : Toast.t,
    toasts (trace (after (onSubmit ApiService_update post values) w))
    = toasts (trace w) ++ [t]
    /\ (Toast.variant t = Some Toast.destructive
        <-> exists e, outcome (onSubmit ApiService_update post values) w
                      = Rejected e)
    /\ (t = successToast
        <-> outcome (onSubmit ApiService_update post values) w = Resolved tt).
Proof.
  onSubmit_runs ApiService_update post values w.
  - exists successToast. cbn [trace successWorld]. rewrite toasts_app.
    split; [ reflexivity | ].
    split; split; intro H; try reflexivity; try discriminate.
    destruct H as [e' H]. discriminate.
  - exists failureToast. cbn [trace]. rewrite toasts_app.
    split; [ reflexivity | ].
    split; split; intro H; try reflexivity; try discriminate.
    exists e. reflexivity.
  - exists invalidFormToast. cbn [trace]. rewrite toasts_app.
    split; [ reflexivity | ].
    split; split; intro H; try reflexivity; try discriminate.
    eexists. reflexivity.
Qed.

(** X3.  No call of [onSubmit] adds, removes, reorders or rewrites a
    cached query: the keys and the cached data are the same before and
    after, an invalidated query stays invalidated, and the cached default
    values of the form are not touched. *)
Theorem submit_cache_frame (values : FormValues) (w : World) :
  map queryKey (queryCache (after (onSubmit ApiService_update post values) w))
  = map queryKey (queryCache w)
  /\ map data (queryCache (after (onSubmit ApiService_update post values) w))
     = map data (queryCache w)
  /\ (forall (i : nat) (q : Query),
        nth_error (queryCache w) i = Some q ->
        isInvalidated q = true ->
        exists q',
          nth_error
            (queryCache (after (onSubmit ApiService_update post values) w)) i
          = Some q'
          /\ isInvalidated q' = true)
  /\ defaultValues (control (after (onSubmit ApiService_update post values) w))
     = defaultValues (control w).
Proof.
  onSubmit_runs ApiService_update post values w;
    cbn [queryCache control successWorld defaultValues].
  - split; [ apply invalidate_keeps_keys | ].
    split; [ apply invalidate_keeps_data | ].
    split; [ | reflexivity ].
    intros i q Hq Hinv.
    rewrite nth_error_map, Hq. cbn [option_map].
    eexists. split; [ reflexivity | ].
    destruct (matchQuery postsFilter q); [ reflexivity | exact Hinv ].
  - repeat split; try reflexivity.
    intros i q Hq Hinv. exists q. split; assumption.
  - repeat split; try reflexivity.
    intros i q Hq Hinv. exists q. split; assumption.
Qed.

(** X4.  The query that feeds the form, cached under ["post", post.id],
    is never invalidated by [onSubmit]: after an update the form keeps
    reading the post as it was loaded. *)
Theorem submit_spares_own_query (values : FormValues) (w : World)
  (i : nat) (q : Query) :
  nth_error (queryCache w) i = Some q ->
  queryKey q = postQueryKey post ->
  nth_error (queryCache (after (onSubmit ApiService_update post values) w)) i
  = Some q.
Proof.
  intros Hq Hkey.
  onSubmit_runs ApiService_update post values w;
    cbn [queryCache successWorld]; try exact Hq.
  apply (invalidate_exact_nth [KStr "posts"] (queryCache w) i q Hq).
  rewrite Hkey. discriminate.
Qed.

End SubmitMore.

(* ================================================================== *)
(** ** The submit event and sessions *)

Section SessionLemmas.

Variable ApiService_update : UpdateArgs.t -> Outcome unit.
Variable post : IPost.t.

(** The submit event, run by run. *)
Lemma handleSubmit_onSubmit (w : World) :
  handleSubmit (onSubmit ApiService_update post) w
  = if zodResolver formSchema (draft w)
    then match ApiService_update (updateArgs post (draft w)) with
         | Resolved _ => (Resolved tt, successWorld post (draft w) w)
         | Rejected e =>
             (Rejected e,
              mkWorld (control w) (characterCount w) (queryCache w)
                (trace w ++ [Trigger (draft w) true;
                             ApiUpdate (updateArgs post (draft w));
                             ShowToast failureToast]))
         end
    else (Resolved tt, w).
Proof.
  unfold handleSubmit.
  destruct (zodResolver formSchema (draft w)) eqn:Hv; [ | reflexivity ].
  destruct (ApiService_update (updateArgs post (draft w))) as [[]|e] eqn:Hapi.
  - apply onSubmit_success; assumption.
  - apply onSubmit_failure; assumption.
Qed.

(** Split a goal about one event into the runs of its handler. *)
Ltac handle_runs ev w :=
  unfold after;
  destruct ev as [[|] [p|] | v | v | v | ];
  cbn [handle];
  [ .. | rewrite (handleSubmit_onSubmit w);
         destruct (zodResolver formSchema (draft w)) eqn:?;
         [ destruct (ApiService_update (updateArgs post (draft w)))
             as [[]|?] eqn:? | ] ];
  cbn [snd].

Lemma handle_apiCalls (ev : Event) (w : World) :
  apiCalls (trace (after (handle ApiService_update post ev) w))
  = apiCalls (trace w)
    ++ match ev with
       | SubmitEvent =>
           if zodResolver formSchema (draft w)
           then [updateArgs post (draft w)]
           else []
       | _ => []
       end.
Proof.
  handle_runs ev w; cbn; rewrite ?apiCalls_app; cbn; rewrite ?app_nil_r;
    reflexivity.
Qed.


Lemma handle_defaults (ev : Event) (w : World) :
  populates ev = false ->
  defaultValues (control (after (handle ApiService_update post ev) w))
  = defaultValues (control w).
Proof.
  intro Hev.
  handle_runs ev w; try discriminate; reflexivity.
Qed.

Lemma handle_sync_rejecting (ev : Event) (w : World) :
  (forall args, ApiService_update args <> Resolved tt) ->
  countInSync w ->
  countInSync (after (handle ApiService_update post ev) w).
Proof.
  intros Hrej Hsync. unfold countInSync in *.
  handle_runs ev w; try exact Hsync; try reflexivity.
  exfalso. eapply Hrej. eassumption.
Qed.

Lemma handle_sync_unpopulated (ev : Event) (w : World) :
  populates ev = false ->
  content (defaultValues (control w)) = "" ->
  countInSync w ->
  countInSync (after (handle ApiService_update post ev) w).
Proof.
  intros Hev Hdef Hsync. unfold countInSync in *.
  handle_runs ev w; try discriminate; try exact Hsync; try reflexivity.
  cbn. rewrite Hdef. reflexivity.
Qed.


End SessionLemmas.

Section SessionProperties.

Variable ApiService_update : UpdateArgs.t -> Outcome unit.
Variable post : IPost.t.

Lemma session_cons (ev : Event) (evs : list Event) (w : World) :
  session ApiService_update post (ev :: evs) w
  = session ApiService_update post evs
      (after (handle ApiService_update post ev) w).
Proof.
  reflexivity.
Qed.

(** A property of worlds that every handler keeps is kept by sessions. *)
Lemma session_invariant (P : World -> Prop) (evs : list Event) :
  (forall ev w, In ev evs -> P w ->
                P (after (handle ApiService_update post ev) w)) ->
  forall w, P w -> P (session ApiService_update post evs w).
Proof.
  induction evs as [|ev evs IH]; intros Hstep w Hw; [ exact Hw | ].
  rewrite session_cons.
  apply IH.
  - intros ev' w' Hin. apply Hstep. right. exact Hin.
  - apply Hstep; [ left; reflexivity | exact Hw ].
Qed.

(** X5.  Through the form's submit event an invalid draft is a silent
    no-operation: the handler resolves and the world, notifications
    included, is what it was.  With a valid draft the event sends one
    request, whose body is the draft itself. *)
Theorem submit_event_gate (w : World) :
  (zodResolver formSchema (draft w) = false ->
   handleSubmit (onSubmit ApiService_update post) w = (Resolved tt, w))
  /\ (zodResolver formSchema (draft w) = true ->
      apiCalls (trace (after (handleSubmit (onSubmit ApiService_update post)) w))
      = apiCalls (trace w)
        ++ [UpdateArgs.mk "/posts" (String_of_number (IPost.id post)) (draft w)]).
Proof.
  split; intro Hv.
  - rewrite handleSubmit_onSubmit, Hv. reflexivity.
  - change (handleSubmit (onSubmit ApiService_update post))
      with (handle ApiService_update post SubmitEvent).
    rewrite handle_apiCalls, Hv. reflexivity.
Qed.

(** X6.  Whatever the user and the loader do after the first render,
    every update request that leaves the component goes to ["/posts"], for
    the stringified identifier of the [post] prop, with a body that passes
    the schema. *)
Theorem session_requests_valid (evs : list Event)
  (currentPost : option IPost.t) (cache : list Query) :
  Forall
    (fun args =>
       UpdateArgs.path args = "/posts"
       /\ UpdateArgs.id args = String_of_number (IPost.id post)
       /\ zodResolver formSchema (UpdateArgs.body args) = true)
    (apiCalls
       (trace (session ApiService_update post evs (mount currentPost cache)))).
Proof.
  apply (session_invariant
           (fun w =>
              Forall
                (fun args =>
                   UpdateArgs.path args = "/posts"
                   /\ UpdateArgs.id args = String_of_number (IPost.id post)
                   /\ zodResolver formSchema (UpdateArgs.body args) = true)
                (apiCalls (trace w)))).
  - intros ev w _ Hw.
    rewrite handle_apiCalls. apply Forall_app. split; [ exact Hw | ].
    destruct ev; try constructor.
    destruct (zodResolver formSchema (draft w)) eqn:Hv; constructor.
    + repeat split; try reflexivity. exact Hv.
    + constructor.
  - constructor.
Qed.


(** X8.  As long as no update succeeds, the character count stays equal
    to the length of the content through loads, edits of any field and
    submissions. *)
Theorem session_count_in_sync_rejecting (evs : list Event) (w : World) :
  (forall args, ApiService_update args <> Resolved tt) ->
  countInSync w ->
  countInSync (session ApiService_update post evs w).
Proof.
  intros Hrej Hsync.
  apply (session_invariant countInSync); [ | exact Hsync ].
  intros ev w' _. apply handle_sync_rejecting. exact Hrej.
Qed.

(** X9.  As long as no post is loaded into the form, the character count
    stays equal to the length of the content through edits of any field
    and submissions, successful ones included. *)
Theorem session_count_in_sync_unpopulated (evs : list Event) (w : World) :
  forallb (fun ev => negb (populates ev)) evs = true ->
  content (defaultValues (control w)) = "" ->
  countInSync w ->
  countInSync (session ApiService_update post evs w).
Proof.
  intros Hevs Hdef Hsync.
  rewrite forallb_forall in Hevs.
  apply (session_invariant
           (fun w => content (defaultValues (control w)) = ""
                     /\ countInSync w));
    [ | split; assumption ].
  intros ev w' Hin [Hdef' Hsync'].
  assert (Hev : populates ev = false).
  { apply negb_true_iff. apply Hevs. exact Hin. }
  split.
  - rewrite handle_defaults; assumption.
  - apply handle_sync_unpopulated; assumption.
Qed.


End SessionProperties.

(* ================================================================== *)
(** ** Stringified identifiers and the populated draft *)

Lemma String_of_number_nonempty (n : Z) : String_of_number n <> "".
Proof.
  unfold String_of_number.
  destruct (Z.to_int n) as [d|d]; simpl; [ | discriminate ].
  destruct d; discriminate.
Qed.

Lemma to_int_proper (n : Z) :
  Z.to_int n <> Decimal.Pos Decimal.Nil /\ Z.to_int n <> Decimal.Neg Decimal.Nil.
Proof.
  destruct n as [|p|p]; simpl; split; intro H; try discriminate;
    injection H as H; exact (DecimalPos.Unsigned.to_uint_nonnil p H).
Qed.

(** Distinct identifiers have distinct numerals. *)
Lemma String_of_number_inj (n m : Z) :
  String_of_number n = String_of_number m -> n = m.
Proof.
  unfold String_of_number. intro H.
  apply (f_equal NilZero.int_of_string) in H.
  destruct (to_int_proper n) as [Hn1 Hn2].
  destruct (to_int_proper m) as [Hm1 Hm2].
  rewrite !NilZero.isi in H by assumption.
  injection H as H.
  rewrite <- (DecimalZ.of_to n), <- (DecimalZ.of_to m), H.
  reflexivity.
Qed.

(** The loaded values pass the schema exactly when title and content are
    within bounds. *)
Lemma loadedValues_valid_iff (p : IPost.t) :
  zodResolver formSchema (loadedValues p) = true
  <-> (1 <= String.length (IPost.title p) <= 50)
      /\ (1 <= String.length (IPost.content p) <= 500).
Proof.
  rewrite zodResolver_lengths. unfold loadedValues; simpl.
  pose proof (String_of_number_nonempty (IPost.categoryId p)) as Hne.
  apply nonempty_length in Hne.
  tauto.
Qed.

(** X11.  Right after population the draft passes the schema exactly when
    the title of the loaded post has 1 to 50 characters and its content 1
    to 500: the stringified category identifier is never empty, so it
    never stands in the way of a submission. *)
Theorem populate_valid_iff (p : IPost.t) (w : World) :
  zodResolver formSchema (draft (after (populateEffect false (Some p)) w)) = true
  <-> (1 <= String.length (IPost.title p) <= 50)
      /\ (1 <= String.length (IPost.content p) <= 500).
Proof.
  change (draft (after (populateEffect false (Some p)) w))
    with (loadedValues p).
  apply loadedValues_valid_iff.
Qed.

(** X12.  Population loses nothing of the editable fields: two loaded
    posts that give the same draft have the same title, the same content
    and the same category identifier. *)
Theorem populate_injective (p q : IPost.t) (w w' : World) :
  draft (after (populateEffect false (Some p)) w)
  = draft (after (populateEffect false (Some q)) w') ->
  IPost.title p = IPost.title q
  /\ IPost.content p = IPost.content q
  /\ IPost.categoryId p = IPost.categoryId q.
Proof.
  change (draft (after (populateEffect false (Some p)) w))
    with (loadedValues p).
  change (draft (after (populateEffect false (Some q)) w'))
    with (loadedValues q).
  unfold loadedValues. intro H. injection H as Ht Hc Hk.
  repeat split; try assumption.
  apply String_of_number_inj. exact Hk.
Qed.

(* ================================================================== *)
(** ** Load, edit, submit *)

Section LoadEditSubmit.

Variable ApiService_update : UpdateArgs.t -> Outcome unit.
Variable post : IPost.t.

Lemma session_app (evs1 evs2 : list Event) (w : World) :
  session ApiService_update post (evs1 ++ evs2) w
  = session ApiService_update post evs2
      (session ApiService_update post evs1 w).
Proof.
  unfold session. apply fold_left_app.
Qed.

(** Only a load changes the values that [form.reset()] goes back to. *)
Lemma session_defaults (evs : list Event) (w : World) :
  forallb (fun ev => negb (populates ev)) evs = true ->
  defaultValues (control (session ApiService_update post evs w))
  = defaultValues (control w).
Proof.
  intro Hevs. rewrite forallb_forall in Hevs.
  apply (session_invariant ApiService_update post
           (fun w' => defaultValues (control w') = defaultValues (control w)));
    [ | reflexivity ].
  intros ev w' Hin Hw'.
  rewrite handle_defaults; [ exact Hw' | ].
  apply negb_true_iff. apply Hevs. exact Hin.
Qed.

(** After a load and any edits, the cached default values are the loaded
    ones. *)
Lemma loaded_session_defaults (p : IPost.t) (evs : list Event) (w : World) :
  forallb (fun ev => negb (populates ev)) evs = true ->
  defaultValues
    (control (session ApiService_update post
                (QueryChanged false (Some p) :: evs) w))
  = loadedValues p.
Proof.
  intro Hevs. rewrite session_cons, session_defaults by exact Hevs.
  reflexivity.
Qed.


(** X14.  After that successful submission, a second submit without
    touching the form sends the loaded values back to the server:
    whenever the loaded title and content are within the bounds of the
    schema, the two requests carry first the edited draft, then the post
    as it was loaded. *)
Theorem resubmit_sends_loaded_values (p : IPost.t) (evs : list Event)
  (w : World) :
  forallb (fun ev => negb (populates ev)) evs = true ->
  zodResolver formSchema
    (draft (session ApiService_update post
              (QueryChanged false (Some p) :: evs) w)) = true ->
  ApiService_update
    (updateArgs post
       (draft (session ApiService_update post
                 (QueryChanged false (Some p) :: evs) w))) = Resolved tt ->
  1 <= String.length (IPost.title p) <= 50 ->
  1 <= String.length (IPost.content p) <= 500 ->
  apiCalls
    (trace (session ApiService_update post
              ((QueryChanged false (Some p) :: evs)
                 ++ [SubmitEvent; SubmitEvent]) w))
  = apiCalls
      (trace (session ApiService_update post
                (QueryChanged false (Some p) :: evs) w))
    ++ [updateArgs post
          (draft (session ApiService_update post
                    (QueryChanged false (Some p) :: evs) w));
        updateArgs post (loadedValues p)].
Proof.
  intros Hevs Hv Hapi Ht Hc.
  rewrite session_app.
  pose proof (loaded_session_defaults p evs w Hevs) as Hdef.
  remember (session ApiService_update post
              (QueryChanged false (Some p) :: evs) w) as w1.
  rewrite !session_cons. cbn [session fold_left].
  rewrite handle_apiCalls.
  assert (Hdraft : draft (after (handle ApiService_update post SubmitEvent) w1)
                   = loadedValues p).
  { unfold after; cbn [handle].
    rewrite handleSubmit_onSubmit, Hv, Hapi. cbn [snd].
    unfold draft; cbn. exact Hdef. }
  rewrite Hdraft.
  assert (Hvalid : zodResolver formSchema (loadedValues p) = true).
  { apply loadedValues_valid_iff. split; assumption. }
  rewrite Hvalid, handle_apiCalls, Hv, <- app_assoc.
  reflexivity.
Qed.

(** X16.  A content of more than 500 characters is taken into the draft
    as typed, nothing is cut: the counter then shows the length over 500
    in the red class, and the submit event does nothing at all. *)
Theorem overlong_content_blocks_submit (value : string) (w : World) :
  500 < String.length value ->
  content (draft (after (handle ApiService_update post (ContentInput value)) w))
  = value
  /\ counterView
       (characterCount
          (after (handle ApiService_update post (ContentInput value)) w))
     = Some (mkCounter " text-red-500/50"
               (String_of_length (String.length value) ++ "/500")%string)
  /\ handleSubmit (onSubmit ApiService_update post)
       (after (handle ApiService_update post (ContentInput value)) w)
     = (Resolved tt,
        after (handle ApiService_update post (ContentInput value)) w).
Proof.
  intro Hlong.
  split; [ reflexivity | ].
  split.
  - change (characterCount
              (after (handle ApiService_update post (ContentInput value)) w))
      with (String.length value).
    unfold counterView.
    destruct (Nat.ltb_spec 0 (String.length value)); [ | lia ].
    destruct (Nat.ltb_spec 400 (String.length value)); [ | lia ].
    reflexivity.
  - rewrite handleSubmit_onSubmit.
    destruct (zodResolver formSchema
                (draft (after (handle ApiService_update post
                                 (ContentInput value)) w))) eqn:Hv;
      [ | reflexivity ].
    apply zodResolver_lengths in Hv.
    change (content (draft (after (handle ApiService_update post
                                     (ContentInput value)) w)))
      with value in Hv.
    lia.
Qed.

End LoadEditSubmit.

(* ================================================================== *)
(** ** The issues that the schema reports *)

(** The issues of [formSchema], field by field. *)
Lemma safeParse_formSchema (v : FormValues) :
  safeParse formSchema v
  = (if Nat.ltb (String.length (title v)) 1 then [(f_title, z.too_small)]
     else if Nat.ltb 50 (String.length (title v)) then [(f_title, z.too_big)]
          else [])
    ++ (if Nat.ltb (String.length (content v)) 1 then [(f_content, z.too_small)]
        else if Nat.ltb 500 (String.length (content v))
             then [(f_content, z.too_big)]
             else [])
    ++ (if Nat.ltb (String.length (categoryId v)) 1
        then [(f_categoryId, z.too_small)]
        else []).
Proof.
  unfold safeParse, formSchema, z.string_, z.min, z.max; simpl.
  destruct (Nat.ltb_spec (String.length (title v)) 1);
    destruct (Nat.ltb_spec 50 (String.length (title v)));
    destruct (Nat.ltb_spec (String.length (content v)) 1);
    destruct (Nat.ltb_spec 500 (String.length (content v)));
    destruct (Nat.ltb_spec (String.length (categoryId v)) 1);
    try lia; reflexivity.
Qed.

(** X15.  The schema reports at most one issue per field: [too_small] for
    a field exactly when it is empty, [too_big] for the title exactly
    when it has more than 50 characters and for the content exactly when
    it has more than 500; the category identifier is never too big. *)
Theorem safeParse_issues (v : FormValues) :
  (In (f_title, z.too_small) (safeParse formSchema v) <-> title v = "")
  /\ (In (f_title, z.too_big) (safeParse formSchema v)
      <-> 50 < String.length (title v))
  /\ (In (f_content, z.too_small) (safeParse formSchema v) <-> content v = "")
  /\ (In (f_content, z.too_big) (safeParse formSchema v)
      <-> 500 < String.length (content v))
  /\ (In (f_categoryId, z.too_small) (safeParse formSchema v)
      <-> categoryId v = "")
  /\ ~ In (f_categoryId, z.too_big) (safeParse formSchema v)
  /\ (forall (f : FieldName) (c1 c2 : z.issue_code),
        In (f, c1) (safeParse formSchema v) ->
        In (f, c2) (safeParse formSchema v) ->
        c1 = c2).
Proof.
  rewrite safeParse_formSchema.
  rewrite <- !length_zero_empty.
  destruct (Nat.ltb_spec (String.length (title v)) 1) as [Ht1 | Ht1];
    destruct (Nat.ltb_spec 50 (String.length (title v))) as [Ht2 | Ht2];
    destruct (Nat.ltb_spec (String.length (content v)) 1) as [Hc1 | Hc1];
    destruct (Nat.ltb_spec 500 (String.length (content v))) as [Hc2 | Hc2];
    destruct (Nat.ltb_spec (String.length (categoryId v)) 1) as [Hk | Hk];
    try lia; cbn [app In];
    repeat split; unfold not; intros;
    repeat match goal with
           | H : _ \/ _ |- _ => destruct H
           | H : False |- _ => contradiction
           | H : (_, _) = (_, _) |- _ => inversion H; clear H; subst
           end;
    try lia; try congruence; auto 6.
Qed.

(* ================================================================== *)
(** ** The further properties at the sample data *)

(** The query of [helloPost], at index 3 of the sample cache, after a
    successful submission. *)
Lemma submit_spares_own_query_witness :
  nth_error (queryCache loadedWorld) 3
  = Some (mkQuery [KStr "post"; KNum 1] [helloPost] false)
  /\ nth_error
       (queryCache (after (onSubmit alwaysResolves helloPost (draft loadedWorld))
                      loadedWorld)) 3
     = Some (mkQuery [KStr "post"; KNum 1] [helloPost] false).
Proof.
  split; [ reflexivity | ].
  exact (submit_spares_own_query alwaysResolves helloPost
           (draft loadedWorld) loadedWorld 3
           (mkQuery [KStr "post"; KNum 1] [helloPost] false)
           eq_refl eq_refl).
Defined.

(** A load, an edit, a refused submission and a title edit. *)
Lemma session_count_in_sync_rejecting_witness :
  countInSync emptyWorld
  /\ countInSync
       (session alwaysRejects helloPost
          [QueryChanged false (Some helloPost); ContentInput "World!";
           SubmitEvent; TitleInput "Hi"]
          emptyWorld).
Proof.
  split; [ reflexivity | ].
  apply (session_count_in_sync_rejecting alwaysRejects helloPost).
  - intros args H. discriminate.
  - reflexivity.
Defined.

(** A form filled by hand, submitted with success and edited again. *)
Lemma session_count_in_sync_unpopulated_witness :
  content (defaultValues (control emptyWorld)) = ""
  /\ countInSync
       (session alwaysResolves helloPost
          [TitleInput "T"; ContentInput "C"; CategorySelect "5";
           SubmitEvent; ContentInput "again"]
          emptyWorld).
Proof.
  split; [ reflexivity | ].
  apply (session_count_in_sync_unpopulated alwaysResolves helloPost).
  - reflexivity.
  - reflexivity.
  - reflexivity.
Defined.

(** Two posts with different identifiers and the same editable fields. *)
Lemma populate_injective_witness :
  draft (after (populateEffect false (Some helloPost)) emptyWorld)
  = draft (after (populateEffect false (Some helloAgain)) loadedWorld)
  /\ IPost.categoryId helloPost = IPost.categoryId helloAgain.
Proof.
  split; [ reflexivity | ].
  destruct (populate_injective helloPost helloAgain emptyWorld loadedWorld
              eq_refl)
    as [_ [_ Hk]].
  exact Hk.
Defined.


(** The same session with a second submit. *)
Lemma resubmit_sends_loaded_values_witness :
  map UpdateArgs.body
    (apiCalls
       (trace (session alwaysResolves helloPost
                 [QueryChanged false (Some helloPost);
                  ContentInput "World, hello"; SubmitEvent; SubmitEvent]
                 emptyWorld)))
  = [mkValues "Hello" "World, hello" "7"; mkValues "Hello" "World" "7"].
Proof.
  assert (H := resubmit_sends_loaded_values alwaysResolves helloPost helloPost
                 [ContentInput "World, hello"] emptyWorld
                 eq_refl eq_refl eq_refl).
  assert (Ht : 1 <= String.length (IPost.title helloPost) <= 50)
    by (simpl; lia).
  assert (Hc : 1 <= String.length (IPost.content helloPost) <= 500)
    by (simpl; lia).
  exact (f_equal (map UpdateArgs.body) (H Ht Hc)).
Defined.

(** A content of 501 letters. *)
Lemma overlong_content_blocks_submit_witness :
  String.length (letters 501) = 501
  /\ counterView
       (characterCount
          (after (handle alwaysResolves helloPost (ContentInput (letters 501)))
             loadedWorld))
     = Some (mkCounter " text-red-500/50" "501/500").
Proof.
  split; [ reflexivity | ].
  destruct (overlong_content_blocks_submit alwaysResolves helloPost
              (letters 501) loadedWorld
              (proj1 (Nat.ltb_lt 500 (String.length (letters 501))) eq_refl))
    as [_ [Hview _]].
  exact Hview.
Defined.

(* ================================================================== *)
(** ** The first render *)

(** X17.  The first render takes the count from the post that the query
    may already hold, while the form starts empty; once the populate
    effect has run, the count is the length of the content, whatever the
    query held.  (While the query is loading it holds no post.) *)
Theorem mount_then_effect_in_sync (isLoading : bool)
  (currentPost : option IPost.t) (cache : list Query) :
  (isLoading = true -> currentPost = None) ->
  countInSync (after (populateEffect isLoading currentPost)
                 (mount currentPost cache))
  /\ (countInSync (mount currentPost cache)
      <-> forall p, currentPost = Some p -> IPost.content p = "").
Proof.
  intro Hload. unfold countInSync. split.
  - destruct isLoading.
    + rewrite (Hload eq_refl). reflexivity.
    + destruct currentPost as [p|]; reflexivity.
  - destruct currentPost as [p|]; cbn.
    + rewrite length_zero_empty. split.
      * intros H q Hq. injection Hq as <-. exact H.
      * intro H. apply H. reflexivity.
    + split; [ intros _ p Hp; discriminate | reflexivity ].
Qed.

(** The first render with [helloPost] already cached: 5 on the counter
    over an empty form, then in sync. *)
Lemma mount_then_effect_in_sync_witness :
  characterCount (mount (Some helloPost) sampleCache) = 5
  /\ content (draft (mount (Some helloPost) sampleCache)) = ""
  /\ countInSync (after (populateEffect false (Some helloPost))
                    (mount (Some helloPost) sampleCache)).
Proof.
  split; [ reflexivity | ].
  split; [ reflexivity | ].
  destruct (mount_then_effect_in_sync false (Some helloPost) sampleCache)
    as [Hsync _].
  - intro H. discriminate.
  - exact Hsync.
Defined.
